(** * Bangla-Chakma translation service: the lookup core of [main.py]

    A shallow embedding of [BidirectionalTranslator] (the loader
    [_build_dictionaries], [translate_word], [translate_sentence]) and of
    the [/translate/word] and [/translate/sentence] request handlers, with
    the properties of the specification, and further properties read off
    the code, stated and proved over it.

    Data model.
    - A Python [str] is a [string]: a sequence of code points below 256
      (the Latin-1 block of Unicode).  [str.lower], [str.strip] and the
      whitespace test of [str.split()] are written out for that range.
    - A [dict] with [str] keys is a [gmap string _].
    - A cell of the data frame is what [str(...)] is applied to: a text,
      or the missing marker NaN that [pandas.read_csv] produces for an
      empty field.
    - The [IndexError] of [translations[0]] in [translate_sentence] is the
      [None] of an [option]; in the request handler, whose [except] clause
      catches every exception, a raise is the left side of a sum. *)

From Stdlib Require Import Ascii String NArith ZArith QArith.
From stdpp Require Import base option list gmap strings.

Local Open Scope string_scope.

(** ** Python string primitives *)

Module PyStr.

Definition code (c : ascii) : N := N_of_ascii c.

Definition between (lo hi n : N) : bool := ((lo <=? n) && (n <=? hi))%N.

(** [c.isspace()] for a code point below 256: TAB..CR, FS..US, SPACE,
    NEL and NBSP. *)
Definition isspace (c : ascii) : bool :=
  let n := code c in
  between 9 13 n || between 28 32 n || (n =? 133)%N || (n =? 160)%N.

(** [c.lower()] for a code point below 256: A..Z and the Latin-1 capitals
    (all of U+00C0..U+00DE but the multiplication sign U+00D7) move up by
    32; everything else is unchanged. *)
Definition lower_char (c : ascii) : ascii :=
  let n := code c in
  if between 65 90 n || (between 192 222 n && negb (n =? 215)%N)
  then ascii_of_N (n + 32)
  else c.

(** [s.lower()] *)
Fixpoint lower (s : string) : string :=
  match s with
  | EmptyString => EmptyString
  | String c s' => String (lower_char c) (lower s')
  end.

(** [s.lstrip()] *)
Fixpoint lstrip (s : string) : string :=
  match s with
  | EmptyString => EmptyString
  | String c s' => if isspace c then lstrip s' else s
  end.

(** [s.rstrip()] *)
Fixpoint rstrip (s : string) : string :=
  match s with
  | EmptyString => EmptyString
  | String c s' =>
      match rstrip s' with
      | EmptyString => if isspace c then EmptyString else String c EmptyString
      | r => String c r
      end
  end.

(** [s.strip()] *)
Definition strip (s : string) : string := rstrip (lstrip s).

(** [s.split(sep)] for a one-character separator: every occurrence of
    [sep] ends a piece, so the result always has at least one piece. *)
Fixpoint split_on (sep : ascii) (s : string) : list string :=
  match s with
  | EmptyString => [EmptyString]
  | String c s' =>
      if Ascii.eqb c sep then EmptyString :: split_on sep s'
      else match split_on sep s' with
           | p :: ps => String c p :: ps
           | [] => [String c EmptyString]
           end
  end.

(** [s.split()]: the maximal runs of non-whitespace characters.  [tok] is
    the run being scanned. *)
Fixpoint split_ws_go (tok : string) (s : string) : list string :=
  match s with
  | EmptyString => if decide (tok = EmptyString) then [] else [tok]
  | String c s' =>
      if isspace c
      then (if decide (tok = EmptyString) then split_ws_go EmptyString s'
            else tok :: split_ws_go EmptyString s')
      else split_ws_go (tok +:+ String c EmptyString) s'
  end.

Definition split_ws (s : string) : list string := split_ws_go EmptyString s.

(** [sep.join(l)] *)
Definition join (sep : string) (l : list string) : string := String.concat sep l.

(** Truth value of a [str]: non-empty. *)
Definition truthy (s : string) : bool :=
  match s with EmptyString => false | _ => true end.

End PyStr.

(** ** Predicates on strings used in the statements *)

Section StringPredicates.
Import PyStr.

(** A string with no whitespace character. *)
Fixpoint no_space (s : string) : bool :=
  match s with
  | EmptyString => true
  | String c s' => negb (isspace c) && no_space s'
  end.

(** A usable token: non-empty and free of whitespace. *)
Definition is_token (s : string) : Prop := s ≠ "" ∧ no_space s = true.

(** A string that does not begin with a whitespace character. *)
Definition clean_start (s : string) : Prop :=
  match s with
  | EmptyString => True
  | String c _ => isspace c = false
  end.

(** A string made of whitespace only. *)
Fixpoint all_space (s : string) : bool :=
  match s with
  | EmptyString => true
  | String c s' => isspace c && all_space s'
  end.

(** [c in s] for a character. *)
Fixpoint mem_char (c : ascii) (s : string) : bool :=
  match s with
  | EmptyString => false
  | String c' s' => Ascii.eqb c' c || mem_char c s'
  end.


(** The key the loader computes for a piece: [piece.strip().lower()]. *)
Definition normalize (term : string) : string := lower (strip term).

End StringPredicates.

(** ** The data frame read by [pd.read_csv] *)

(** A cell as [str(row[...])] sees it.  [Text s] stands for any value whose
    [str()] is [s]; [NaN] is the float that marks a missing field. *)
Inductive cell : Type :=
  | Text (s : string)
  | NaN.

(** [str(v)] *)
Definition py_str (v : cell) : string :=
  match v with
  | Text s => s
  | NaN => "nan"
  end.

(** One item of [self.df.iterrows()], with its two columns. *)
Record row : Type := Row { chakma : cell; bangla : cell }.

(** ** class BidirectionalTranslator *)

Module BidirectionalTranslator.

(** The two dictionaries of an instance. *)
Record t : Type := Translator {
  chakma_to_bangla : gmap string (list string);
  bangla_to_chakma : gmap string (list string)
}.

(** [self.chakma_to_bangla[k] = v] and [self.bangla_to_chakma[k] = v] *)
Definition set_chakma_to_bangla (k : string) (v : list string) (self : t) : t :=
  Translator (<[k := v]> (chakma_to_bangla self)) (bangla_to_chakma self).

Definition set_bangla_to_chakma (k : string) (v : list string) (self : t) : t :=
  Translator (chakma_to_bangla self) (<[k := v]> (bangla_to_chakma self)).

(** [[word.strip() for word in str(v).split(',')]] *)
Definition words_of (v : cell) : list string :=
  PyStr.strip <$> PyStr.split_on "," (py_str v).

(** The first inner loop: [for chakma in chakma_words: if chakma: ...] *)
Definition add_chakma (bangla_words : list string) (self : t) (chakma : string) : t :=
  if PyStr.truthy chakma
  then set_chakma_to_bangla (PyStr.lower chakma) bangla_words self
  else self.

(** The second inner loop: [for bangla in bangla_words: if bangla: ...] *)
Definition add_bangla (bangla_words : list string) (self : t) (bangla : string) : t :=
  if PyStr.truthy bangla
  then set_bangla_to_chakma (PyStr.lower bangla) bangla_words self
  else self.

(** The body of the loop over the rows. *)
Definition build_row (self : t) (r : row) : t :=
  let chakma_words := words_of (chakma r) in
  let bangla_words := words_of (bangla r) in
  let self1 := foldl (add_chakma bangla_words) self chakma_words in
  foldl (add_bangla bangla_words) self1 bangla_words.

Definition _build_dictionaries (df : list row) (self : t) : t :=
  foldl build_row self df.

(** [__init__], given the frame that [pd.read_csv] returned. *)
Definition init (df : list row) : t :=
  _build_dictionaries df (Translator ∅ ∅).

(** [dictionary = self.chakma_to_bangla if to_bangla else self.bangla_to_chakma] *)
Definition dictionary (self : t) (to_bangla : bool) : gmap string (list string) :=
  if to_bangla then chakma_to_bangla self else bangla_to_chakma self.

Definition translate_word (self : t) (word : string) (to_bangla : bool) : list string :=
  let word := PyStr.lower word in
  default [word] (dictionary self to_bangla !! word).

(** The text appended to [all_possibilities]. *)
Definition possibility (word : string) (translations : list string) : string :=
  word +:+ ": " +:+ PyStr.join ", " translations.

(** The loop of [translate_sentence] over [words], carrying the two lists
    it appends to.  [translations[0]] raises on an empty list. *)
Fixpoint sentence_loop (self : t) (to_bangla : bool) (words : list string)
    (primary_translation all_possibilities : list string)
    : option (list string * list string) :=
  match words with
  | [] => Some (primary_translation, all_possibilities)
  | word :: rest =>
      let translations := translate_word self word to_bangla in
      match translations with
      | [] => None
      | first :: _ =>
          sentence_loop self to_bangla rest
            (primary_translation ++ [first])
            (if decide (1 < length translations)
             then all_possibilities ++ [possibility word translations]
             else all_possibilities)
      end
  end.

Definition no_alternatives : list string := ["No alternative translations"].

Definition translate_sentence (self : t) (sentence : string) (to_bangla : bool)
    : option (string * list string) :=
  let words := PyStr.split_ws sentence in
  match sentence_loop self to_bangla words [] [] with
  | None => None
  | Some (primary_translation, all_possibilities) =>
      let primary := PyStr.join " " primary_translation in
      let alternatives :=
        match all_possibilities with
        | [] => no_alternatives
        | _ => all_possibilities
        end in
      Some (primary, alternatives)
  end.

End BidirectionalTranslator.

Module BT := BidirectionalTranslator.

(** ** The request handlers *)

(** The value [request.get_json()] returned. *)
#[local] Unset Elimination Schemes.
Inductive json : Type :=
  | JNull
  | JBool (b : bool)
  | JInt (z : Z)
  | JFloat (q : Q)
  | JStr (s : string)
  | JArr (l : list json)
  | JObj (kv : list (string * json)).
#[local] Set Elimination Schemes.

Module App.

(** Exceptions the handler body can raise. *)
Inductive exn : Type := TypeError | KeyError | AttributeError | IndexError.

(** What a handler returns: [jsonify(...)] and the status code. *)
Inductive body : Type :=
  | Error (error : string)
  | Failed (e : exn)
  | Translated (text primary_translation : string)
      (alternative_translations : list string) (direction : string).

Record response : Type := Response { payload : body; status : nat }.

(** [bool(v)] *)
Definition truthy (v : json) : bool :=
  match v with
  | JNull => false
  | JBool b => b
  | JInt z => negb (z =? 0)%Z
  | JFloat q => negb (Qnum q =? 0)%Z
  | JStr s => PyStr.truthy s
  | JArr l => match l with [] => false | _ => true end
  | JObj kv => match kv with [] => false | _ => true end
  end.

(** [d[k]] on the items of a dict. *)
Fixpoint dict_get (k : string) (kv : list (string * json)) : option json :=
  match kv with
  | [] => None
  | (k', v) :: kv' => if String.eqb k' k then Some v else dict_get k kv'
  end.

(** [x in s] for two [str]: [x] occurs in [s]. *)
Fixpoint occurs (x s : string) : bool :=
  String.prefix x s ||
  match s with
  | EmptyString => false
  | String _ s' => occurs x s'
  end.

Definition is_str (k : string) (v : json) : bool :=
  match v with JStr s => String.eqb s k | _ => false end.

(** [k in data] *)
Definition contains (k : string) (data : json) : exn + bool :=
  match data with
  | JObj kv => inr (bool_decide (is_Some (dict_get k kv)))
  | JArr l => inr (existsb (is_str k) l)
  | JStr s => inr (occurs k s)
  | _ => inl TypeError
  end.

(** [data[k]] with a [str] key *)
Definition subscript (data : json) (k : string) : exn + json :=
  match data with
  | JObj kv => match dict_get k kv with Some v => inr v | None => inl KeyError end
  | _ => inl TypeError
  end.

(** [v.strip()] *)
Definition strip (v : json) : exn + string :=
  match v with
  | JStr s => inr (PyStr.strip s)
  | _ => inl AttributeError
  end.

(** [data.get(k, True)] *)
Definition get_default_true (data : json) (k : string) : exn + json :=
  match data with
  | JObj kv => inr (default (JBool true) (dict_get k kv))
  | _ => inl AttributeError
  end.

(** [l[0]] *)
Definition first (l : list string) : exn + string :=
  match l with
  | [] => inl IndexError
  | x :: _ => inr x
  end.

Definition bind {A B : Type} (m : exn + A) (f : A → exn + B) : exn + B :=
  match m with
  | inl e => inl e
  | inr a => f a
  end.

Notation "x <- m ;; k" := (bind m (fun x => k))
  (at level 100, m at next level, right associativity).

Definition direction (to_bangla : json) : string :=
  if truthy to_bangla then "chakma_to_bangla" else "bangla_to_chakma".

(** The [try] block of the [/translate/word] handler.  [to_bangla] is
    whatever value the body holds; [translate_word] and the [direction]
    entry only test its truth value. *)
Definition translate_word_try (translator : BT.t) (data : json) : exn + response :=
  if negb (truthy data) then inr (Response (Error "Missing required field: text") 400)
  else
    has_text <- contains "text" data ;;
    if negb has_text then inr (Response (Error "Missing required field: text") 400)
    else
      raw <- subscript data "text" ;;
      text <- strip raw ;;
      to_bangla <- get_default_true data "to_bangla" ;;
      if negb (PyStr.truthy text) then inr (Response (Error "Empty text provided") 400)
      else
        let translations := BT.translate_word translator text (truthy to_bangla) in
        primary <- first translations ;;
        inr (Response
               (Translated text primary
                  (if decide (1 < length translations) then drop 1 translations else [])
                  (direction to_bangla))
               200).

(** The handler: [except Exception as e] turns a raise into a 500.  The
    module-level [translator] is read and handed back as it was. *)
Definition translate_word (translator : BT.t) (data : json) : response * BT.t :=
  match translate_word_try translator data with
  | inr r => (r, translator)
  | inl e => (Response (Failed e) 500, translator)
  end.

(** The [try] block of the [/translate/sentence] handler: the same checks,
    then the method [translate_sentence], whose [IndexError] propagates. *)
Definition translate_sentence_try (translator : BT.t) (data : json) : exn + response :=
  if negb (truthy data) then inr (Response (Error "Missing required field: text") 400)
  else
    has_text <- contains "text" data ;;
    if negb has_text then inr (Response (Error "Missing required field: text") 400)
    else
      raw <- subscript data "text" ;;
      text <- strip raw ;;
      to_bangla <- get_default_true data "to_bangla" ;;
      if negb (PyStr.truthy text) then inr (Response (Error "Empty text provided") 400)
      else
        match BT.translate_sentence translator text (truthy to_bangla) with
        | None => inl IndexError
        | Some (primary, alternatives) =>
            inr (Response (Translated text primary alternatives (direction to_bangla)) 200)
        end.

Definition translate_sentence (translator : BT.t) (data : json) : response * BT.t :=
  match translate_sentence_try translator data with
  | inr r => (r, translator)
  | inl e => (Response (Failed e) 500, translator)
  end.

Definition has_error_field (b : body) : bool :=
  match b with
  | Error _ | Failed _ => true
  | Translated _ _ _ _ => false
  end.

End App.

(** ** What the loops of the translator compute *)

Section TranslatorFunctions.
Import PyStr BT.

(** The keys a list of pieces contributes: the lower-cased non-empty ones. *)
Fixpoint keys_of (ws : list string) : list string :=
  match ws with
  | [] => []
  | w :: ws' => if truthy w then lower w :: keys_of ws' else keys_of ws'
  end.

Definition chakma_keys (r : row) : list string := keys_of (words_of (chakma r)).
Definition bangla_keys (r : row) : list string := keys_of (words_of (bangla r)).

(** Element 0 of each word's translations. *)
Definition firsts (self : t) (d : bool) (ws : list string) : list string :=
  (λ w, default "" (head (translate_word self w d))) <$> ws.

(** The entries the loop appends to [all_possibilities]. *)
Fixpoint possibilities (self : t) (d : bool) (ws : list string) : list string :=
  match ws with
  | [] => []
  | w :: ws' =>
      let translations := translate_word self w d in
      if decide (1 < length translations)
      then possibility w translations :: possibilities self d ws'
      else possibilities self d ws'
  end.

(** The keys a row contributes to the index of a direction. *)
Definition row_keys (d : bool) (r : row) : list string :=
  if d then chakma_keys r else bangla_keys r.

(** The list the rows of a frame leave under a key: that of the last row
    that carries the key, if there is one. *)
Fixpoint last_entry (d : bool) (k : string) (df : list row) : option (list string) :=
  match df with
  | [] => None
  | r :: df' =>
      match last_entry d k df' with
      | Some l => Some l
      | None => if decide (k ∈ row_keys d r) then Some (words_of (bangla r)) else None
      end
  end.

(** A string without a comma. *)
Definition no_comma (s : string) : bool := negb (mem_char "," s).

(** The body of a well-formed request: an object whose [text] is the
    string [s]. *)
Definition has_text (data : json) (s : string) : Prop :=
  ∃ kv, data = JObj kv ∧ App.dict_get "text" kv = Some (JStr s).

(** The [to_bangla] entry of a body, [True] when it has none. *)
Definition to_bangla_of (data : json) : bool :=
  match data with
  | JObj kv => App.truthy (default (JBool true) (App.dict_get "to_bangla" kv))
  | _ => true
  end.

End TranslatorFunctions.

(** The row of the specification's scenario. *)
Definition example_row : row := Row (Text "cha1, cha2") (Text "ban1").

(** The [text] entry of a request body, when it is an object that has one. *)
Definition text_field (data : json) : option json :=
  match data with
  | JObj kv => App.dict_get "text" kv
  | _ => None
  end.

(** The body has a [text] that is a string and is empty once stripped. *)
Definition blank_text (data : json) : Prop :=
  ∃ s, text_field data = Some (JStr s) ∧ PyStr.strip s = "".

(** The outcomes of a [try] block that turn a body down: a raise, or a
    400 with an error message. *)
Inductive rejected : App.exn + App.response → Prop :=
  | rejected_raise e : rejected (inl e)
  | rejected_400 msg : rejected (inr (App.Response (App.Error msg) 400)).

(** * Properties *)

(** ** The model on concrete inputs *)

Example lower_ABC : PyStr.lower "ABC" = "abc".
Proof. reflexivity. Qed.

Example strip_ex : PyStr.strip "  a b  " = "a b".
Proof. reflexivity. Qed.

Example split_on_ex : PyStr.split_on "," "cha1, cha2,," = ["cha1"; " cha2"; ""; ""].
Proof. reflexivity. Qed.

Example split_ws_ex : PyStr.split_ws "  ab   c d " = ["ab"; "c"; "d"].
Proof. reflexivity. Qed.

Example join_ex : PyStr.join ", " ["a"; "b"; "c"] = "a, b, c".
Proof. reflexivity. Qed.

Example example_sentence :
  BT.translate_sentence (BT.init [example_row]) "cha1 unknownxyz" true
  = Some ("ban1 unknownxyz", ["No alternative translations"]).
Proof. vm_compute. reflexivity. Qed.

Example example_alternatives :
  BT.translate_sentence (BT.init [Row (Text "a") (Text "X, y")]) " A  b" true
  = Some ("X b", ["A: X, y"]).
Proof. vm_compute. reflexivity. Qed.

Example post_empty_text :
  fst (App.translate_word (BT.init [example_row])
         (JObj [("text", JStr ""); ("to_bangla", JBool true)]))
  = App.Response (App.Error "Empty text provided") 400.
Proof. vm_compute. reflexivity. Qed.

Example post_sentence :
  fst (App.translate_sentence (BT.init [Row (Text "a") (Text "X, y")])
         (JObj [("text", JStr " A  b "); ("to_bangla", JInt 1)]))
  = App.Response (App.Translated "A  b" "X b" ["A: X, y"] "chakma_to_bangla") 200.
Proof. vm_compute. reflexivity. Qed.

Example post_word :
  fst (App.translate_word (BT.init [Row (Text "a") (Text "X, y")])
         (JObj [("text", JStr " A ")]))
  = App.Response (App.Translated "A" "X" ["y"] "chakma_to_bangla") 200.
Proof. vm_compute. reflexivity. Qed.

(** ** Facts about the string primitives *)

Section PyStrFacts.
Import PyStr.

Ltac each_char c := destruct c as [[] [] [] [] [] [] [] []]; vm_compute; reflexivity.

Lemma isspace_lower_char c : isspace (lower_char c) = isspace c.
Proof. each_char c. Qed.

Lemma lower_char_idem c : lower_char (lower_char c) = lower_char c.
Proof. each_char c. Qed.

Lemma lower_idem s : lower (lower s) = lower s.
Proof. induction s as [|c s IH]; simpl; [done|]. by rewrite lower_char_idem, IH. Qed.

Lemma truthy_lower s : truthy (lower s) = truthy s.
Proof. by destruct s. Qed.

Lemma truthy_true s : truthy s = true ↔ s ≠ "".
Proof. destruct s; simpl; split; intros; congruence. Qed.

Lemma str_app_cons c s t : String c s +:+ t = String c (s +:+ t).
Proof. reflexivity. Qed.

Lemma str_app_empty_r s : s +:+ "" = s.
Proof. induction s as [|c s IH]; [done|]. by rewrite str_app_cons, IH. Qed.

Lemma str_app_assoc s1 s2 s3 : (s1 +:+ s2) +:+ s3 = s1 +:+ (s2 +:+ s3).
Proof. induction s1 as [|c s1 IH]; [done|]. by rewrite !str_app_cons, IH. Qed.

Lemma lstrip_lower s : lstrip (lower s) = lower (lstrip s).
Proof.
  induction s as [|c s IH]; simpl; [done|].
  rewrite isspace_lower_char. by destruct (isspace c).
Qed.

Lemma rstrip_lower s : rstrip (lower s) = lower (rstrip s).
Proof.
  induction s as [|c s IH]; simpl; [done|].
  rewrite IH, isspace_lower_char.
  destruct (rstrip s); simpl; [by destruct (isspace c)|done].
Qed.

Lemma strip_lower s : strip (lower s) = lower (strip s).
Proof. unfold strip. by rewrite lstrip_lower, rstrip_lower. Qed.

Lemma lstrip_clean_start s : clean_start (lstrip s).
Proof.
  induction s as [|c s IH]; simpl; [done|].
  destruct (isspace c) eqn:E; [done|]. by simpl.
Qed.

Lemma lstrip_id s : clean_start s → lstrip s = s.
Proof. destruct s as [|c s]; simpl; [done|]. by intros ->. Qed.

Lemma rstrip_clean_start s : clean_start s → clean_start (rstrip s).
Proof.
  destruct s as [|c s]; simpl; [done|]. intros E.
  destruct (rstrip s); [by rewrite E|done].
Qed.

Lemma rstrip_idem s : rstrip (rstrip s) = rstrip s.
Proof.
  induction s as [|c s IH]; simpl; [done|].
  destruct (rstrip s) as [|c' r] eqn:E.
  - destruct (isspace c) eqn:Ec; simpl; [done|]. by rewrite Ec.
  - change (rstrip (String c (String c' r))) with
      (match rstrip (String c' r) with
       | "" => if isspace c then "" else String c ""
       | r' => String c r'
       end).
    by rewrite IH.
Qed.

Lemma strip_idem s : strip (strip s) = strip s.
Proof.
  unfold strip.
  rewrite (lstrip_id (rstrip (lstrip s))).
  - apply rstrip_idem.
  - apply rstrip_clean_start, lstrip_clean_start.
Qed.

Lemma no_space_rstrip s : no_space s = true → rstrip s = s.
Proof.
  induction s as [|c s IH]; simpl; [done|].
  intros [Hc Hs]%andb_true_iff. rewrite (IH Hs).
  destruct s; [|done]. by destruct (isspace c).
Qed.

Lemma no_space_strip s : no_space s = true → strip s = s.
Proof.
  intros H. unfold strip. rewrite lstrip_id; [by apply no_space_rstrip|].
  destruct s as [|c s]; simpl in *; [done|].
  apply andb_true_iff in H as [Hc _]. by destruct (isspace c).
Qed.

Lemma no_space_app s1 s2 :
  no_space (s1 +:+ s2) = no_space s1 && no_space s2.
Proof.
  induction s1 as [|c s1 IH]; [done|]. rewrite str_app_cons. simpl.
  by rewrite IH, andb_assoc.
Qed.

Lemma split_on_cons sep s : ∃ p ps, split_on sep s = p :: ps.
Proof.
  destruct s as [|c s]; simpl; [by eexists _, _|].
  destruct (Ascii.eqb c sep); [by eexists _, _|].
  destruct (split_on sep s); by eexists _, _.
Qed.

(** Scanning a whitespace-free run only extends the token in hand. *)
Lemma split_ws_go_run tok w rest :
  no_space w = true →
  split_ws_go tok (w +:+ rest) = split_ws_go (tok +:+ w) rest.
Proof.
  revert tok. induction w as [|c w IH]; intros tok.
  - by rewrite str_app_empty_r.
  - simpl. intros [Hc Hw]%andb_true_iff. apply negb_true_iff in Hc.
    rewrite Hc, (IH _ Hw), str_app_assoc. reflexivity.
Qed.

(** Splitting a single-space join of tokens gives the tokens back. *)
Lemma split_ws_join ws :
  Forall is_token ws → split_ws (join " " ws) = ws.
Proof.
  unfold split_ws, join. induction 1 as [|w ws [Hne Hw] Hws IH]; [done|].
  destruct ws as [|w' ws'].
  - simpl. rewrite <- (str_app_empty_r w) at 1.
    rewrite (split_ws_go_run _ _ _ Hw). simpl. by rewrite decide_False.
  - change (String.concat " " (w :: w' :: ws'))
      with (w +:+ String " " (String.concat " " (w' :: ws'))).
    rewrite (split_ws_go_run _ _ _ Hw). cbn [split_ws_go].
    change (isspace " ") with true. cbn iota.
    rewrite decide_False by done. by rewrite IH.
Qed.

(** Every piece [s.split()] returns is a token. *)
Lemma split_ws_go_tokens tok s :
  no_space tok = true → Forall is_token (split_ws_go tok s).
Proof.
  revert tok. induction s as [|c s IH]; intros tok Htok; simpl.
  - case_decide; [constructor|]. by repeat constructor.
  - destruct (isspace c) eqn:Ec.
    + case_decide; [by apply IH|]. constructor; [done|by apply IH].
    + apply IH. rewrite no_space_app, Htok. simpl. by rewrite Ec.
Qed.

Lemma split_ws_tokens s : Forall is_token (split_ws s).
Proof. by apply split_ws_go_tokens. Qed.

End PyStrFacts.

(** ** Facts about the loader *)

Section LoaderFacts.
Import PyStr BT.

Lemma elem_of_keys_of k ws :
  k ∈ keys_of ws ↔ ∃ w, w ∈ ws ∧ w ≠ "" ∧ lower w = k.
Proof.
  induction ws as [|w ws IH]; simpl.
  - split; [by intros ?%elem_of_nil|]. by intros (? & ?%elem_of_nil & _).
  - destruct (truthy w) eqn:E.
    + rewrite elem_of_cons, IH. clear IH. apply truthy_true in E. split.
      * intros [->|(w' & ? & ? & ?)]; [exists w|exists w']; set_solver.
      * intros (w' & [->|?]%elem_of_cons & ? & ?); [by left|right; by exists w'].
    + rewrite IH. clear IH. split.
      * intros (w' & ? & ? & ?). exists w'. set_solver.
      * intros (w' & [->|?]%elem_of_cons & Hne & ?); [|by exists w'].
        apply truthy_true in Hne. congruence.
Qed.

Lemma words_of_cons v : ∃ p ps, words_of v = p :: ps.
Proof.
  unfold words_of. destruct (split_on_cons "," (py_str v)) as (p & ps & ->).
  by eexists _, _.
Qed.

Lemma words_of_stripped v w : w ∈ words_of v → strip w = w.
Proof.
  unfold words_of. intros (p & -> & _)%list_elem_of_fmap. apply strip_idem.
Qed.

(** A key is non-empty, trimmed and lower-cased. *)
Lemma keys_of_words_normal v k :
  k ∈ keys_of (words_of v) → k ≠ "" ∧ strip k = k ∧ lower k = k.
Proof.
  intros (w & Hw & Hne & <-)%elem_of_keys_of. split_and!.
  - apply truthy_true. rewrite truthy_lower. by apply truthy_true.
  - by rewrite strip_lower, (words_of_stripped _ _ Hw).
  - apply lower_idem.
Qed.

Lemma fold_add_chakma bw cw self k :
  chakma_to_bangla (foldl (add_chakma bw) self cw) !! k
  = (if decide (k ∈ keys_of cw) then Some bw else chakma_to_bangla self !! k)
  ∧ bangla_to_chakma (foldl (add_chakma bw) self cw) = bangla_to_chakma self.
Proof.
  revert self. induction cw as [|c cw IH]; intros self; [done|].
  change (foldl (add_chakma bw) self (c :: cw))
    with (foldl (add_chakma bw) (add_chakma bw self c) cw).
  destruct (IH (add_chakma bw self c)) as [-> ->]. clear IH.
  unfold add_chakma. cbn [keys_of].
  destruct (truthy c); [|done]. unfold set_chakma_to_bangla. cbn [chakma_to_bangla bangla_to_chakma].
  split; [|done].
  destruct (decide (k = lower c)) as [->|Hne].
  - rewrite lookup_insert_eq.
    destruct (decide (lower c ∈ lower c :: keys_of cw)) as [_|Hnin].
    + by case_decide.
    + exfalso. apply Hnin, elem_of_cons. by left.
  - rewrite lookup_insert_ne by done.
    destruct (decide (k ∈ keys_of cw)) as [Hin|Hnin].
    + rewrite decide_True; [done|]. apply elem_of_cons. by right.
    + rewrite decide_False; [done|]. by intros [?|?]%elem_of_cons.
Qed.

Lemma fold_add_bangla bw ws self k :
  bangla_to_chakma (foldl (add_bangla bw) self ws) !! k
  = (if decide (k ∈ keys_of ws) then Some bw else bangla_to_chakma self !! k)
  ∧ chakma_to_bangla (foldl (add_bangla bw) self ws) = chakma_to_bangla self.
Proof.
  revert self. induction ws as [|b ws IH]; intros self; [done|].
  change (foldl (add_bangla bw) self (b :: ws))
    with (foldl (add_bangla bw) (add_bangla bw self b) ws).
  destruct (IH (add_bangla bw self b)) as [-> ->]. clear IH.
  unfold add_bangla. cbn [keys_of].
  destruct (truthy b); [|done]. unfold set_bangla_to_chakma. cbn [bangla_to_chakma chakma_to_bangla].
  split; [|done].
  destruct (decide (k = lower b)) as [->|Hne].
  - rewrite lookup_insert_eq.
    destruct (decide (lower b ∈ lower b :: keys_of ws)) as [_|Hnin].
    + by case_decide.
    + exfalso. apply Hnin, elem_of_cons. by left.
  - rewrite lookup_insert_ne by done.
    destruct (decide (k ∈ keys_of ws)) as [Hin|Hnin].
    + rewrite decide_True; [done|]. apply elem_of_cons. by right.
    + rewrite decide_False; [done|]. by intros [?|?]%elem_of_cons.
Qed.

(** What one row does to each index. *)
Lemma build_row_chakma self r k :
  chakma_to_bangla (build_row self r) !! k
  = if decide (k ∈ chakma_keys r) then Some (words_of (bangla r))
    else chakma_to_bangla self !! k.
Proof.
  unfold build_row, chakma_keys.
  rewrite (proj2 (fold_add_bangla _ _ _ k)).
  apply fold_add_chakma.
Qed.

Lemma build_row_bangla self r k :
  bangla_to_chakma (build_row self r) !! k
  = if decide (k ∈ bangla_keys r) then Some (words_of (bangla r))
    else bangla_to_chakma self !! k.
Proof.
  unfold build_row, bangla_keys.
  rewrite (proj1 (fold_add_bangla _ _ _ k)).
  by rewrite (proj2 (fold_add_chakma _ _ _ k)).
Qed.

Lemma build_snoc df r self :
  _build_dictionaries (df ++ [r]) self = build_row (_build_dictionaries df self) r.
Proof. unfold _build_dictionaries. by rewrite foldl_app. Qed.

Lemma build_app df1 df2 self :
  _build_dictionaries (df1 ++ df2) self
  = _build_dictionaries df2 (_build_dictionaries df1 self).
Proof. unfold _build_dictionaries. by rewrite foldl_app. Qed.

(** Rows that do not carry a key leave its entry alone. *)
Lemma build_chakma_untouched df self k :
  Forall (λ r, k ∉ chakma_keys r) df →
  chakma_to_bangla (_build_dictionaries df self) !! k = chakma_to_bangla self !! k.
Proof.
  intros Hdf. revert self. induction Hdf as [|r df Hr _ IH]; intros self; [done|].
  change (_build_dictionaries (r :: df) self)
    with (_build_dictionaries df (build_row self r)).
  by rewrite IH, build_row_chakma, decide_False.
Qed.

Lemma build_bangla_untouched df self k :
  Forall (λ r, k ∉ bangla_keys r) df →
  bangla_to_chakma (_build_dictionaries df self) !! k = bangla_to_chakma self !! k.
Proof.
  intros Hdf. revert self. induction Hdf as [|r df Hr _ IH]; intros self; [done|].
  change (_build_dictionaries (r :: df) self)
    with (_build_dictionaries df (build_row self r)).
  by rewrite IH, build_row_bangla, decide_False.
Qed.

(** The last row that carries a key decides its entry. *)
Lemma build_chakma_last df1 r df2 self k :
  k ∈ chakma_keys r → Forall (λ r', k ∉ chakma_keys r') df2 →
  chakma_to_bangla (_build_dictionaries (df1 ++ r :: df2) self) !! k
  = Some (words_of (bangla r)).
Proof.
  intros Hk Hlater. rewrite build_app.
  change (_build_dictionaries (r :: df2) ?s)
    with (_build_dictionaries df2 (build_row s r)).
  by rewrite build_chakma_untouched, build_row_chakma, decide_True.
Qed.

Lemma build_bangla_last df1 r df2 self k :
  k ∈ bangla_keys r → Forall (λ r', k ∉ bangla_keys r') df2 →
  bangla_to_chakma (_build_dictionaries (df1 ++ r :: df2) self) !! k
  = Some (words_of (bangla r)).
Proof.
  intros Hk Hlater. rewrite build_app.
  change (_build_dictionaries (r :: df2) ?s)
    with (_build_dictionaries df2 (build_row s r)).
  by rewrite build_bangla_untouched, build_row_bangla, decide_True.
Qed.

(** Every entry of a built index comes from a row that carries its key. *)
Lemma init_chakma_entry df k l :
  chakma_to_bangla (init df) !! k = Some l →
  ∃ r, r ∈ df ∧ k ∈ chakma_keys r ∧ l = words_of (bangla r).
Proof.
  unfold init. induction df as [|r df IH] using rev_ind; [done|].
  rewrite build_snoc, build_row_chakma. case_decide.
  - intros [= <-]. exists r. set_solver.
  - intros (r' & ? & ? & ?)%IH. exists r'. set_solver.
Qed.

Lemma init_bangla_entry df k l :
  bangla_to_chakma (init df) !! k = Some l →
  ∃ r, r ∈ df ∧ k ∈ bangla_keys r ∧ l = words_of (bangla r).
Proof.
  unfold init. induction df as [|r df IH] using rev_ind; [done|].
  rewrite build_snoc, build_row_bangla. case_decide.
  - intros [= <-]. exists r. set_solver.
  - intros (r' & ? & ? & ?)%IH. exists r'. set_solver.
Qed.

Lemma init_entry df d k l :
  dictionary (init df) d !! k = Some l →
  ∃ r, r ∈ df ∧ l = words_of (bangla r)
       ∧ k ∈ (if d then chakma_keys r else bangla_keys r).
Proof.
  destruct d; simpl.
  - intros (r & ? & ? & ?)%init_chakma_entry. by exists r.
  - intros (r & ? & ? & ?)%init_bangla_entry. by exists r.
Qed.

(** A lookup in a built translator never returns the empty list. *)
Lemma translate_word_cons df w d :
  ∃ x xs, translate_word (init df) w d = x :: xs.
Proof.
  unfold translate_word.
  destruct (dictionary (init df) d !! lower w) as [l|] eqn:E; simpl.
  - apply init_entry in E as (r & _ & -> & _). apply words_of_cons.
  - by eexists _, _.
Qed.

End LoaderFacts.

(** ** Facts about [translate_sentence] *)

Section SentenceFacts.
Import PyStr BT.

Lemma mem_char_app_r c s1 s2 :
  mem_char c s2 = true → mem_char c (s1 +:+ s2) = true.
Proof.
  intros H. induction s1 as [|c' s1 IH]; [done|].
  rewrite str_app_cons. simpl. rewrite IH. apply orb_true_r.
Qed.

Lemma possibility_colon w tr : mem_char ":" (possibility w tr) = true.
Proof. unfold possibility. by apply mem_char_app_r. Qed.

Lemma possibilities_colon self d ws :
  Forall (λ e, mem_char ":" e = true) (possibilities self d ws).
Proof.
  induction ws as [|w ws IH]; simpl; [constructor|].
  case_decide; [constructor|]; auto using possibility_colon.
Qed.

Lemma possibilities_nil self d ws :
  possibilities self d ws = []
  ↔ Forall (λ w, (length (translate_word self w d) ≤ 1)%nat) ws.
Proof.
  induction ws as [|w ws IH]; simpl; [by split; [constructor|]|].
  case_decide as Hlen.
  - split; [done|]. intros [??]%Forall_cons. lia.
  - rewrite IH, Forall_cons. split; [|by intros []]. intros. split; [lia|done].
Qed.

Lemma possibilities_not_sentinel self d ws :
  possibilities self d ws ≠ no_alternatives.
Proof.
  intros E. pose proof (possibilities_colon self d ws) as H.
  rewrite E in H. by apply Forall_cons in H as [? _].
Qed.

(** On a built translator the loop never raises, and computes this. *)
Lemma sentence_loop_init df d ws p a :
  sentence_loop (init df) d ws p a
  = Some ((p ++ firsts (init df) d ws)%list,
          (a ++ possibilities (init df) d ws)%list).
Proof.
  revert p a. induction ws as [|w ws IH]; intros p a; simpl.
  - by rewrite !app_nil_r.
  - destruct (translate_word_cons df w d) as (x & xs & E). rewrite E.
    rewrite IH. simpl. rewrite <- !(assoc_L (++)). simpl.
    by destruct (decide (1 < S (length xs))); rewrite <- ?(assoc_L (++)).
Qed.

Lemma translate_sentence_init df sentence d :
  translate_sentence (init df) sentence d
  = Some (join " " (firsts (init df) d (split_ws sentence)),
          match possibilities (init df) d (split_ws sentence) with
          | [] => no_alternatives
          | e :: es => e :: es
          end).
Proof.
  unfold translate_sentence. rewrite sentence_loop_init. simpl.
  by destruct (possibilities _ _ _).
Qed.

End SentenceFacts.

(** ** Blank cells *)

Section BlankFacts.
Import PyStr BT.

Lemma rstrip_empty s : clean_start s → rstrip s = "" → s = "".
Proof.
  destruct s as [|c s]; simpl; [done|]. intros ->. by destruct (rstrip s).
Qed.

Lemma lstrip_empty s : lstrip s = "" → all_space s = true.
Proof.
  induction s as [|c s IH]; simpl; [done|].
  destruct (isspace c); [by intros ?%IH|done].
Qed.

Lemma strip_empty s : strip s = "" → all_space s = true.
Proof.
  intros H. apply lstrip_empty, rstrip_empty; [apply lstrip_clean_start|done].
Qed.

Lemma split_on_comma_blank s : all_space s = true → split_on "," s = [s].
Proof.
  induction s as [|c s IH]; simpl; [done|].
  intros [Hc Hs]%andb_true_iff. rewrite (IH Hs).
  destruct (Ascii.eqb_spec c ","); [by subst|done].
Qed.

Lemma words_of_blank s : strip s = "" → words_of (Text s) = [""].
Proof.
  intros H. unfold words_of. simpl.
  rewrite split_on_comma_blank by by apply strip_empty.
  simpl. by rewrite H.
Qed.

End BlankFacts.

(** * The specification's claims *)

Section Loader.
Import PyStr BT.

(** C1. The loader's reverse index maps Bangla to Bangla.  Processing a row
    assigns to the lower-cased form of each non-empty trimmed Bangla term
    of the row the row's whole Bangla list, and the built index keeps that
    entry unless a later row carries the same key; every entry of the built
    [bangla_to_chakma] is the Bangla list of a row that carries its key
    (never a Chakma list); and on the row chakma="cha1, cha2", bangla="ban1"
    the indexes are cha1 -> [ban1], cha2 -> [ban1] and ban1 -> [ban1]. *)
Theorem reverse_index_is_bangla_to_bangla :
  (∀ self r b,
     b ∈ words_of (bangla r) → b ≠ "" →
     bangla_to_chakma (build_row self r) !! lower b = Some (words_of (bangla r)))
  ∧ (∀ df1 r df2 b,
       b ∈ words_of (bangla r) → b ≠ "" →
       Forall (λ r', lower b ∉ bangla_keys r') df2 →
       bangla_to_chakma (init (df1 ++ r :: df2)) !! lower b
       = Some (words_of (bangla r)))
  ∧ (∀ df k l,
       bangla_to_chakma (init df) !! k = Some l →
       ∃ r, r ∈ df ∧ k ∈ bangla_keys r ∧ l = words_of (bangla r))
  ∧ chakma_to_bangla (init [example_row]) !! "cha1" = Some ["ban1"]
  ∧ chakma_to_bangla (init [example_row]) !! "cha2" = Some ["ban1"]
  ∧ bangla_to_chakma (init [example_row]) !! "ban1" = Some ["ban1"].
Proof.
  split_and!.
  - intros self r b Hb Hne. rewrite build_row_bangla, decide_True; [done|].
    apply elem_of_keys_of. by exists b.
  - intros df1 r df2 b Hb Hne Hlater. apply build_bangla_last; [|done].
    apply elem_of_keys_of. by exists b.
  - apply init_bangla_entry.
  - by vm_compute.
  - by vm_compute.
  - by vm_compute.
Qed.

Lemma reverse_index_is_bangla_to_bangla_witness :
  bangla_to_chakma (build_row (Translator ∅ ∅) (Row (Text "x") (Text "Ban1, ban2")))
    !! lower "Ban1" = Some ["Ban1"; "ban2"].
Proof.
  apply (proj1 reverse_index_is_bangla_to_bangla
           (Translator ∅ ∅) (Row (Text "x") (Text "Ban1, ban2")) "Ban1").
  - vm_compute. apply list_elem_of_here.
  - discriminate.
Defined.

(** C3, as the code has it.  Reading a cell never fails, but a blank cell
    is not read as the empty list: every cell gives at least one trimmed
    piece, a blank one the single piece [""], which is skipped as a key so
    that the index of its side is left as it was.  Every key of a built
    index is non-empty, trimmed and lower-cased; every stored value is the
    list of the trimmed pieces of a row's Bangla cell, in their original
    case. *)
Theorem loader_cells_keys_and_values :
  (∀ v, words_of v ≠ [])
  ∧ (∀ s, strip s = "" → words_of (Text s) = [""])
  ∧ (∀ self s v, strip s = "" →
       chakma_to_bangla (build_row self (Row (Text s) v)) = chakma_to_bangla self)
  ∧ (∀ self s v, strip s = "" →
       bangla_to_chakma (build_row self (Row v (Text s))) = bangla_to_chakma self)
  ∧ (∀ df d k l,
       dictionary (init df) d !! k = Some l →
       k ≠ "" ∧ strip k = k ∧ lower k = k
       ∧ ∃ r, r ∈ df ∧ l = strip <$> split_on "," (py_str (bangla r)))
  ∧ chakma_to_bangla (init [Row (Text "ChA") (Text " Ban One ,BAN2")]) !! "cha"
    = Some ["Ban One"; "BAN2"].
Proof.
  split_and!.
  - intros v. by destruct (words_of_cons v) as (p & ps & ->).
  - apply words_of_blank.
  - intros self s v Hs. apply map_eq. intros k.
    rewrite build_row_chakma. unfold chakma_keys. simpl.
    by rewrite (words_of_blank _ Hs).
  - intros self s v Hs. apply map_eq. intros k.
    rewrite build_row_bangla. unfold bangla_keys. simpl.
    by rewrite (words_of_blank _ Hs).
  - intros df d k l (r & Hr & -> & Hk)%init_entry.
    assert (k ≠ "" ∧ strip k = k ∧ lower k = k) as (? & ? & ?).
    { destruct d; by eapply keys_of_words_normal. }
    split_and!; [done..|]. by exists r.
  - by vm_compute.
Qed.

Lemma loader_cells_keys_and_values_witness : words_of (Text "  ") = [""].
Proof.
  apply (proj1 (proj2 loader_cells_keys_and_values) "  "). reflexivity.
Defined.

(** C3 as stated fails: a missing cell is read as the list ["nan"] and a
    blank one as [""], not as the empty list, and that list is stored. *)
Lemma empty_cell_is_not_empty_list :
  words_of NaN = ["nan"] ∧ words_of NaN ≠ []
  ∧ words_of (Text " ") = [""] ∧ words_of (Text " ") ≠ []
  ∧ chakma_to_bangla (init [Row (Text "cha1") NaN]) !! "cha1" = Some ["nan"]
  ∧ chakma_to_bangla (init [Row (Text "cha1") (Text " ")]) !! "cha1" = Some [""].
Proof. split_and!; by vm_compute. Qed.

(** C4, as the code has it.  When several rows carry the same key, the
    entry of the built index is the Bangla list of the last such row: an
    assignment of a later row replaces that of an earlier one. *)
Theorem last_seen_row_wins df1 r df2 d k :
  k ∈ row_keys d r →
  Forall (λ r', k ∉ row_keys d r') df2 →
  dictionary (init (df1 ++ r :: df2)) d !! k = Some (words_of (bangla r)).
Proof.
  intros Hk Hlater. destruct d; simpl in *.
  - by apply build_chakma_last.
  - by apply build_bangla_last.
Qed.

Lemma last_seen_row_wins_witness :
  dictionary (init ([Row (Text "a") (Text "x")] ++ Row (Text "A") (Text "y") :: [])) true
    !! "a" = Some (words_of (bangla (Row (Text "A") (Text "y")))).
Proof.
  apply (last_seen_row_wins [Row (Text "a") (Text "x")] (Row (Text "A") (Text "y")) [] true "a").
  - vm_compute. apply list_elem_of_here.
  - constructor.
Defined.

(** C4 as stated fails: with the rows (a, x) and (a, y) the entry of "a" is
    the list of the second row, not that of the first-seen one. *)
Lemma first_seen_row_does_not_win :
  let first := Row (Text "a") (Text "x") in
  let second := Row (Text "a") (Text "y") in
  "a" ∈ chakma_keys first ∧ "a" ∈ chakma_keys second
  ∧ chakma_to_bangla (init [first; second]) !! "a" = Some ["y"]
  ∧ chakma_to_bangla (init [first; second]) !! "a" ≠ Some (words_of (bangla first)).
Proof.
  split_and!; try by vm_compute.
  - vm_compute. apply list_elem_of_here.
  - vm_compute. apply list_elem_of_here.
Qed.

(** C10. In a built [bangla_to_chakma] the list stored under a key holds a
    term whose trimmed, lower-cased form is the key; so a known Bangla word
    translated from Bangla to Chakma comes back in its own result, up to
    case. *)
Theorem reverse_index_holds_its_key df :
  (∀ k l, bangla_to_chakma (init df) !! k = Some l →
     ∃ b, b ∈ l ∧ lower (strip b) = k)
  ∧ (∀ w, is_Some (bangla_to_chakma (init df) !! lower w) →
       ∃ b, b ∈ translate_word (init df) w false ∧ lower (strip b) = lower w).
Proof.
  assert (∀ k l, bangla_to_chakma (init df) !! k = Some l →
            ∃ b, b ∈ l ∧ lower (strip b) = k) as Hinv.
  { intros k l (r & _ & Hk & ->)%init_bangla_entry.
    apply elem_of_keys_of in Hk as (b & Hb & _ & <-).
    exists b. split; [done|]. by rewrite (words_of_stripped _ _ Hb). }
  split; [done|]. intros w [l Hl].
  unfold translate_word. simpl. rewrite Hl. simpl. by apply Hinv.
Qed.

Lemma reverse_index_holds_its_key_witness :
  ∃ b, b ∈ translate_word (init [Row (Text "x") (Text "Ban1, ban2")]) "BAN1" false
       ∧ lower (strip b) = lower "BAN1".
Proof.
  apply (proj2 (reverse_index_holds_its_key [Row (Text "x") (Text "Ban1, ban2")]) "BAN1").
  vm_compute. eauto.
Defined.

End Loader.

Section Translator.
Import PyStr BT.

(** C2, as the code has it.  A word whose lower-cased form is not a key of
    the index of the direction is answered by the one-element list holding
    its lower-cased form; [translate_word] does not trim, so this is the
    normalized word when the word has no surrounding whitespace. *)
Theorem translate_word_miss self w d :
  dictionary self d !! lower w = None →
  translate_word self w d = [lower w]
  ∧ (strip w = w → translate_word self w d = [normalize w]).
Proof.
  intros Hmiss. unfold translate_word. simpl. rewrite Hmiss. simpl.
  split; [done|]. intros Hw. unfold normalize. by rewrite Hw.
Qed.

Lemma translate_word_miss_witness :
  translate_word (init [example_row]) "UnknownXYZ" true = [lower "UnknownXYZ"]
  ∧ (strip "UnknownXYZ" = "UnknownXYZ" →
     translate_word (init [example_row]) "UnknownXYZ" true = [normalize "UnknownXYZ"]).
Proof.
  apply (translate_word_miss (init [example_row]) "UnknownXYZ" true).
  vm_compute. reflexivity.
Defined.

(** C2 as stated fails: " abc" is normalized to "abc", which is not a key,
    yet the answer keeps the leading space. *)
Lemma translate_word_miss_keeps_spaces :
  dictionary (init [example_row]) true !! normalize " abc" = None
  ∧ translate_word (init [example_row]) " abc" true = [" abc"]
  ∧ translate_word (init [example_row]) " abc" true ≠ [normalize " abc"].
Proof. split_and!; by vm_compute. Qed.

(** C5. On a translator built by the loader, [translate_word] returns a
    non-empty list for every word (a non-empty one in particular) and
    either direction. *)
Theorem translate_word_nonempty df w d :
  translate_word (init df) w d ≠ [].
Proof. by destruct (translate_word_cons df w d) as (x & xs & ->). Qed.

(** C6. On a translator built by the loader, [translate_sentence] returns
    for every sentence and direction; its alternatives are never empty, and
    they are the sentinel list exactly when no token of the sentence has a
    translation list longer than one. *)
Theorem sentence_alternatives_sentinel df sentence d :
  ∃ primary alternatives,
    translate_sentence (init df) sentence d = Some (primary, alternatives)
    ∧ alternatives ≠ []
    ∧ (alternatives = ["No alternative translations"]
       ↔ Forall (λ w, (length (translate_word (init df) w d) ≤ 1)%nat)
           (split_ws sentence)).
Proof.
  eexists _, _. split; [apply translate_sentence_init|].
  destruct (possibilities (init df) d (split_ws sentence)) as [|e es] eqn:E.
  - split; [done|]. split; [|done]. intros _. by apply possibilities_nil.
  - split; [done|]. split.
    + intros Heq. rewrite Heq in E. by apply possibilities_not_sentinel in E.
    + intros Hall%possibilities_nil. congruence.
Qed.

(** C7, as the code has it.  The primary output is the single-space join,
    in token order, of element 0 of each token's translations.  When each
    of these is itself one token (non-empty, no whitespace), splitting the
    primary output on whitespace gives them back, so it has as many tokens
    as the sentence. *)
Theorem sentence_primary df sentence d :
  (∃ alternatives,
     translate_sentence (init df) sentence d
     = Some (join " " (firsts (init df) d (split_ws sentence)), alternatives))
  ∧ (Forall is_token (firsts (init df) d (split_ws sentence)) →
     split_ws (join " " (firsts (init df) d (split_ws sentence)))
     = firsts (init df) d (split_ws sentence)
     ∧ length (split_ws (join " " (firsts (init df) d (split_ws sentence))))
       = length (split_ws sentence)).
Proof.
  split.
  - eexists. apply translate_sentence_init.
  - intros Htok. rewrite (split_ws_join _ Htok).
    split; [done|]. unfold firsts. by rewrite length_fmap.
Qed.

Lemma sentence_primary_witness :
  split_ws (join " " (firsts (init [example_row]) true (split_ws "cha1 unknownxyz")))
  = firsts (init [example_row]) true (split_ws "cha1 unknownxyz")
  ∧ length (split_ws (join " " (firsts (init [example_row]) true (split_ws "cha1 unknownxyz"))))
    = length (split_ws "cha1 unknownxyz").
Proof.
  apply (proj2 (sentence_primary [example_row] "cha1 unknownxyz" true)).
  vm_compute. repeat constructor; discriminate.
Defined.

(** C7 as stated fails: a stored first synonym of two words, or an empty
    one, changes the number of whitespace tokens of the primary output. *)
Lemma sentence_primary_token_count_differs :
  translate_sentence (init [Row (Text "a") (Text "b c")]) "a" true
  = Some ("b c", ["No alternative translations"])
  ∧ length (split_ws "b c") = 2 ∧ length (split_ws "a") = 1
  ∧ translate_sentence (init [Row (Text "a") (Text ", b")]) "a" true
    = Some ("", ["a: , b"])
  ∧ length (split_ws "") = 0.
Proof. split_and!; by vm_compute. Qed.



End Translator.

Section Endpoint.
Import PyStr.

(** Where the guards of the word endpoint work.  A 400 answer always
    carries an error field and is given only to a body without a [text]
    entry or with a [text] that is empty once trimmed; a body that is a
    JSON object, or whose truth value is false, gets that answer whenever
    it has no [text] or a blank one.  The handler hands the translator
    back as it was. *)
Lemma word_endpoint_bad_request translator data :
  (App.status (App.translate_word translator data).1 = 400 →
   App.has_error_field (App.payload (App.translate_word translator data).1) = true
   ∧ (text_field data = None ∨ blank_text data))
  ∧ ((∃ kv, data = JObj kv) ∨ App.truthy data = false →
     text_field data = None ∨ blank_text data →
     App.status (App.translate_word translator data).1 = 400)
  ∧ (App.translate_word translator data).2 = translator
  ∧ (App.translate_word translator
       (JObj [("text", JStr ""); ("to_bangla", JBool true)])).1
    = App.Response (App.Error "Empty text provided") 400.
Proof.
  split_and!; [| |by unfold App.translate_word; destruct (App.translate_word_try _ _)|done].
  - unfold App.translate_word, App.translate_word_try.
    destruct (App.truthy data) eqn:Htruthy; simpl.
    + destruct data as [|b|z|q|s|l|kv]; simpl; try done.
      * destruct (App.occurs "text" s); simpl; [done|auto].
      * destruct (existsb (App.is_str "text") l); simpl; [done|auto].
      * destruct (App.dict_get "text" kv) as [v|] eqn:Hv; simpl; [|auto].
        destruct v as [| | | |s| |]; simpl; try done.
        destruct (truthy (strip s)) eqn:Hs; simpl.
        -- by destruct (BT.translate_word _ _ _).
        -- intros _. split; [done|]. right. exists s. split; [done|].
           by destruct (strip s).
    + intros _. split; [done|]. left.
      destruct data as [|b|z|q|s|l|[|kv]]; simpl in *; done.
  - unfold App.translate_word, App.translate_word_try.
    destruct (App.truthy data) eqn:Htruthy; simpl; [|done].
    intros [[kv ->]|?]; [|done]. simpl.
    intros [Hnone|(s & Hs & Hblank)]; simpl in *.
    + rewrite Hnone. by rewrite bool_decide_eq_false_2 by by intros [].
    + rewrite Hs. rewrite bool_decide_eq_true_2 by eauto. simpl.
      by rewrite Hblank.
Qed.

Lemma word_endpoint_bad_request_witness :
  App.status
    (App.translate_word (BT.init [example_row]) (JObj [("to_bangla", JBool false)])).1
  = 400.
Proof.
  apply (word_endpoint_bad_request (BT.init [example_row])
           (JObj [("to_bangla", JBool false)])).
  - left. eexists. reflexivity.
  - left. reflexivity.
Defined.

(** On a body that is a JSON object the guards do what they are written
    for: the answer is 400 exactly when [text] is missing or blank. *)
Lemma word_endpoint_object_body translator kv :
  App.status (App.translate_word translator (JObj kv)).1 = 400
  ↔ text_field (JObj kv) = None ∨ blank_text (JObj kv).
Proof.
  split.
  - intros H. by apply (word_endpoint_bad_request translator (JObj kv)).
  - intros H. apply (word_endpoint_bad_request translator (JObj kv)); [|done].
    left. by exists kv.
Qed.

(** C9.  The claim asks a 400 for every body without a [text] field, and
    the guard [if not data or 'text' not in data] is written to give it,
    as it does for the bodies 0, null, ["x"] and "abc".  On the body 5 the
    test ['text' not in data] itself raises a TypeError, and the answer is
    the 500 of the catch-all; the same happens to an array or a string
    that holds "text", where the test passes and the subscript raises. *)
Theorem word_endpoint_non_object_body :
  text_field (JInt 5) = None
  ∧ (App.translate_word (BT.init [example_row]) (JInt 5)).1
    = App.Response (App.Failed App.TypeError) 500
  ∧ text_field (JArr [JStr "text"]) = None
  ∧ (App.translate_word (BT.init [example_row]) (JArr [JStr "text"])).1
    = App.Response (App.Failed App.TypeError) 500
  ∧ text_field (JStr "some text") = None
  ∧ (App.translate_word (BT.init [example_row]) (JStr "some text")).1
    = App.Response (App.Failed App.TypeError) 500
  ∧ Forall (λ data,
      (App.translate_word (BT.init [example_row]) data).1
      = App.Response (App.Error "Missing required field: text") 400)
      [JInt 0; JNull; JArr [JStr "x"]; JStr "abc"].
Proof. split_and!; try by vm_compute. repeat constructor. Qed.

End Endpoint.

(** * Further properties of the loader *)

Section LoaderMore.
Import PyStr BT.

Lemma build_cons r df self :
  _build_dictionaries (r :: df) self = _build_dictionaries df (build_row self r).
Proof. reflexivity. Qed.

Lemma build_row_lookup self r d k :
  dictionary (build_row self r) d !! k
  = if decide (k ∈ row_keys d r) then Some (words_of (bangla r))
    else dictionary self d !! k.
Proof. destruct d; [apply build_row_chakma|apply build_row_bangla]. Qed.

(** The entry of a key after a run of the loader over [df]. *)
Lemma build_lookup df self d k :
  dictionary (_build_dictionaries df self) d !! k
  = match last_entry d k df with
    | Some l => Some l
    | None => dictionary self d !! k
    end.
Proof.
  revert self. induction df as [|r df IH]; intros self; [done|].
  rewrite build_cons, IH. cbn [last_entry].
  destruct (last_entry d k df); [done|].
  rewrite build_row_lookup. by case_decide.
Qed.

Lemma last_entry_is_Some d k df :
  is_Some (last_entry d k df) ↔ ∃ r, r ∈ df ∧ k ∈ row_keys d r.
Proof.
  induction df as [|r df IH]; cbn [last_entry].
  - split; [by intros []|]. by intros (? & ?%elem_of_nil & _).
  - destruct (last_entry d k df) as [l|].
    + split; [|by eauto]. intros _.
      destruct (proj1 IH) as (r' & ? & ?); [by eauto|].
      exists r'. split; [by apply elem_of_cons; right|done].
    + case_decide as Hk.
      * split; [|by eauto]. intros _. exists r. split; [apply list_elem_of_here|done].
      * split; [by intros []|]. intros (r' & [->|Hr']%elem_of_cons & Hk'); [done|].
        apply IH. by exists r'.
Qed.

Lemma translator_eq (a b : t) :
  (∀ d k, dictionary a d !! k = dictionary b d !! k) → a = b.
Proof.
  destruct a as [a1 a2], b as [b1 b2]. intros H. f_equal; apply map_eq; intros k.
  - apply (H true k).
  - apply (H false k).
Qed.


Lemma init_is_Some df d k :
  is_Some (dictionary (init df) d !! k)
  ↔ ∃ r w, r ∈ df ∧ w ∈ words_of (if d then chakma r else bangla r)
           ∧ w ≠ "" ∧ lower w = k.
Proof.
  unfold init. rewrite build_lookup.
  assert (is_Some (last_entry d k df)
          ↔ ∃ r w, r ∈ df ∧ w ∈ words_of (if d then chakma r else bangla r)
                   ∧ w ≠ "" ∧ lower w = k) as <-.
  { rewrite last_entry_is_Some. split.
    - intros (r & Hr & Hk). exists r.
      destruct d; apply elem_of_keys_of in Hk as (w & ? & ? & ?); by exists w.
    - intros (r & w & Hr & Hw & Hne & Hk). exists r. split; [done|].
      destruct d; apply elem_of_keys_of; by exists w. }
  destruct (last_entry d k df); [done|].
  destruct d; simpl; rewrite lookup_empty; split; by intros [].
Qed.

(** X1. The keys of a built index are exactly the lower-cased non-empty
    trimmed terms of the matching column: no term of the table is lost and
    no key comes from anywhere else. *)
Theorem built_keys_are_the_terms df d k :
  is_Some (dictionary (init df) d !! k)
  ↔ ∃ r w, r ∈ df ∧ w ∈ words_of (if d then chakma r else bangla r)
           ∧ w ≠ "" ∧ lower w = k.
Proof. apply init_is_Some. Qed.



Lemma last_entry_bangla_column k df df' :
  bangla <$> df = bangla <$> df' → last_entry false k df = last_entry false k df'.
Proof.
  revert df'. induction df as [|r df IH]; intros [|r' df']; try done.
  rewrite !fmap_cons. intros [= Hr Hdf]. cbn [last_entry].
  rewrite (IH _ Hdf). unfold row_keys, bangla_keys. by rewrite Hr.
Qed.

(** X3. The reverse index is a function of the Bangla column alone: two
    frames with the same Bangla cells, row by row, give the same
    [bangla_to_chakma], whatever their Chakma cells hold. *)
Theorem reverse_index_ignores_chakma_column df df' :
  bangla <$> df = bangla <$> df' →
  bangla_to_chakma (init df) = bangla_to_chakma (init df').
Proof.
  intros Hcol. apply map_eq. intros k.
  pose proof (build_lookup df (Translator ∅ ∅) false k) as H1.
  pose proof (build_lookup df' (Translator ∅ ∅) false k) as H2.
  simpl in H1, H2. unfold init. rewrite H1, H2.
  by rewrite (last_entry_bangla_column k _ _ Hcol).
Qed.

Lemma reverse_index_ignores_chakma_column_witness :
  bangla_to_chakma (init [Row (Text "cha1, cha2") (Text "ban1")])
  = bangla_to_chakma (init [Row NaN (Text "ban1")]).
Proof.
  apply (reverse_index_ignores_chakma_column
           [Row (Text "cha1, cha2") (Text "ban1")] [Row NaN (Text "ban1")]).
  reflexivity.
Defined.

(** X4. Running the loader a second time over the same frame changes
    nothing: both indexes already hold, for every key, the list of the last
    row that carries it. *)
Theorem rebuilding_is_idempotent df self :
  _build_dictionaries df (_build_dictionaries df self) = _build_dictionaries df self
  ∧ init (df ++ df) = init df.
Proof.
  assert (∀ s, _build_dictionaries df (_build_dictionaries df s)
               = _build_dictionaries df s) as H.
  { intros s. apply translator_eq. intros d k. rewrite !build_lookup.
    by destruct (last_entry d k df). }
  split; [apply H|]. unfold init. by rewrite build_app, H.
Qed.

(** X5. Every non-empty synonym stored in either index is itself a key of
    the reverse index: whatever a lookup returns can be looked up again in
    the Bangla-to-Chakma direction. *)
Theorem stored_synonyms_are_reverse_keys df d k l b :
  dictionary (init df) d !! k = Some l →
  b ∈ l → b ≠ "" →
  is_Some (bangla_to_chakma (init df) !! lower b).
Proof.
  intros (r & Hr & -> & _)%init_entry Hb Hne.
  apply (init_is_Some df false). by exists r, b.
Qed.

Lemma stored_synonyms_are_reverse_keys_witness :
  is_Some (bangla_to_chakma (init [example_row]) !! lower "ban1").
Proof.
  apply (stored_synonyms_are_reverse_keys [example_row] true "cha2" ["ban1"] "ban1").
  - vm_compute. reflexivity.
  - apply list_elem_of_here.
  - discriminate.
Defined.

End LoaderMore.

Section CommaFree.
Import PyStr BT.

Lemma split_on_no_sep sep s :
  Forall (λ p, mem_char sep p = false) (split_on sep s).
Proof.
  induction s as [|c s IH]; simpl; [by repeat constructor|].
  destruct (Ascii.eqb c sep) eqn:E; [by constructor|].
  destruct (split_on sep s) as [|p ps]; [by repeat constructor; simpl; rewrite E|].
  apply Forall_cons in IH as [Hp Hps]. constructor; [|done].
  simpl. by rewrite E, Hp.
Qed.

Lemma mem_char_lstrip c s : mem_char c s = false → mem_char c (lstrip s) = false.
Proof.
  induction s as [|c' s IH]; simpl; [done|].
  intros [Hc Hs]%orb_false_iff. destruct (isspace c'); [by apply IH|].
  simpl. by rewrite Hc, Hs.
Qed.

Lemma mem_char_rstrip c s : mem_char c s = false → mem_char c (rstrip s) = false.
Proof.
  induction s as [|c' s IH]; simpl; [done|].
  intros [Hc Hs]%orb_false_iff. specialize (IH Hs).
  destruct (rstrip s) as [|c'' r].
  - destruct (isspace c'); [done|]. simpl. by rewrite Hc.
  - cbn [mem_char]. rewrite Hc. exact IH.
Qed.

Lemma mem_char_strip c s : mem_char c s = false → mem_char c (strip s) = false.
Proof. intros H. by apply mem_char_rstrip, mem_char_lstrip. Qed.

Lemma lower_char_comma c : Ascii.eqb (lower_char c) "," = Ascii.eqb c ",".
Proof. destruct c as [[] [] [] [] [] [] [] []]; vm_compute; reflexivity. Qed.

Lemma mem_comma_lower s : mem_char "," (lower s) = mem_char "," s.
Proof.
  induction s as [|c s IH]; simpl; [done|]. by rewrite lower_char_comma, IH.
Qed.

Lemma words_of_clean v :
  Forall (λ b, strip b = b ∧ no_comma b = true) (words_of v).
Proof.
  apply Forall_forall. intros b Hb. split; [by eapply words_of_stripped|].
  unfold words_of in Hb. apply list_elem_of_fmap in Hb as (p & -> & Hp).
  pose proof (split_on_no_sep "," (py_str v)) as Hall.
  rewrite Forall_forall in Hall. unfold no_comma.
  by rewrite mem_char_strip by by apply Hall.
Qed.

(** X6. The comma is spent by the loader as the separator of synonyms: no
    key and no stored synonym of a built index contains one, and every
    stored synonym is trimmed. *)
Theorem built_entries_are_comma_free df d k l :
  dictionary (init df) d !! k = Some l →
  no_comma k = true ∧ Forall (λ b, strip b = b ∧ no_comma b = true) l.
Proof.
  intros (r & _ & -> & Hk)%init_entry. split; [|apply words_of_clean].
  assert (∃ v, k ∈ keys_of (words_of v)) as [v Hv] by (destruct d; eauto).
  apply elem_of_keys_of in Hv as (w & Hw & _ & <-).
  pose proof (words_of_clean v) as Hall. rewrite Forall_forall in Hall.
  destruct (Hall w Hw) as [_ Hc]. unfold no_comma in *. by rewrite mem_comma_lower.
Qed.

Lemma built_entries_are_comma_free_witness :
  no_comma "cha1" = true
  ∧ Forall (λ b, strip b = b ∧ no_comma b = true) ["ban1"].
Proof.
  apply (built_entries_are_comma_free [example_row] true "cha1" ["ban1"]).
  vm_compute. reflexivity.
Defined.

End CommaFree.

(** * Further properties of [translate_sentence] *)

Section SentenceMore.
Import PyStr BT.

Lemma translate_word_nil self w d :
  translate_word self w d = [] ↔ dictionary self d !! lower w = Some [].
Proof.
  unfold translate_word. simpl.
  destruct (dictionary self d !! lower w) as [l|]; simpl; [|done].
  split; [by intros ->|by intros [= ->]].
Qed.

Lemma translate_word_on_miss self w d :
  dictionary self d !! lower w = None → translate_word self w d = [lower w].
Proof. intros H. unfold translate_word. simpl. by rewrite H. Qed.

(** The loop on any state of the dictionaries, when no token raises. *)
Lemma sentence_loop_ok self d ws p a :
  Forall (λ w, translate_word self w d ≠ []) ws →
  sentence_loop self d ws p a
  = Some ((p ++ firsts self d ws)%list, (a ++ possibilities self d ws)%list).
Proof.
  intros Hws. revert p a. induction Hws as [|w ws Hw _ IH]; intros p a; simpl.
  - by rewrite !app_nil_r.
  - destruct (translate_word self w d) as [|x xs] eqn:E; [done|].
    rewrite IH. simpl. rewrite <- !(assoc_L (++)). simpl.
    by destruct (decide (1 < S (length xs))); rewrite <- ?(assoc_L (++)).
Qed.

Lemma sentence_loop_None self d ws p a :
  sentence_loop self d ws p a = None
  ↔ Exists (λ w, translate_word self w d = []) ws.
Proof.
  revert p a. induction ws as [|w ws IH]; intros p a; simpl.
  - split; [done|]. by intros ?%Exists_nil.
  - rewrite Exists_cons.
    destruct (translate_word self w d) as [|x xs] eqn:E.
    + split; [by left|done].
    + rewrite IH. split; [by right|]. by intros [|].
Qed.

Lemma lower_app s1 s2 : lower (s1 +:+ s2) = lower s1 +:+ lower s2.
Proof.
  induction s1 as [|c s1 IH]; [done|].
  rewrite str_app_cons. simpl. by rewrite IH.
Qed.

Lemma join_lower ws : join " " (lower <$> ws) = lower (join " " ws).
Proof.
  unfold join. induction ws as [|w ws IH]; [done|].
  destruct ws as [|w' ws']; [done|].
  change (String.concat " " (w :: w' :: ws'))
    with (w +:+ String " " (String.concat " " (w' :: ws'))).
  rewrite lower_app. cbn [lower]. rewrite <- IH. reflexivity.
Qed.

Lemma split_ws_lstrip s : split_ws (lstrip s) = split_ws s.
Proof.
  unfold split_ws. induction s as [|c s IH]; simpl; [done|].
  destruct (isspace c) eqn:E; [done|]. simpl. by rewrite E.
Qed.

Lemma split_ws_go_rstrip tok s : split_ws_go tok (rstrip s) = split_ws_go tok s.
Proof.
  revert tok. induction s as [|c s IH]; intros tok; [done|].
  assert (split_ws_go tok (String c (rstrip s)) = split_ws_go tok (String c s)) as <-.
  { simpl. by rewrite !IH. }
  cbn [rstrip]. destruct (rstrip s) as [|c' r]; [|done].
  destruct (isspace c) eqn:E; [|done].
  simpl. rewrite E. by case_decide.
Qed.

Lemma split_ws_strip s : split_ws (strip s) = split_ws s.
Proof.
  unfold strip. rewrite <- (split_ws_lstrip s). apply split_ws_go_rstrip.
Qed.

Lemma translate_sentence_None self sentence d :
  translate_sentence self sentence d = None
  ↔ Exists (λ w, translate_word self w d = []) (split_ws sentence).
Proof.
  unfold translate_sentence. rewrite <- (sentence_loop_None self d _ [] []).
  by destruct (sentence_loop self d (split_ws sentence) [] []) as [[p a]|].
Qed.

(** X7. On any state of the dictionaries, [translate_sentence] raises
    exactly when some token of the sentence has the empty list stored under
    its lower-cased form; otherwise it returns. *)
Theorem translate_sentence_raises_iff self sentence d :
  translate_sentence self sentence d = None
  ↔ ∃ w, w ∈ split_ws sentence ∧ dictionary self d !! lower w = Some [].
Proof.
  rewrite translate_sentence_None, Exists_exists.
  split; intros (w & Hw & Hnil); exists w; (split; [done|]);
    by apply translate_word_nil.
Qed.

(** X8. A sentence none of whose tokens is a key comes back lower-cased,
    its tokens joined by single spaces, with the sentinel as alternatives;
    a sentence without tokens gives the empty primary output. *)
Theorem unknown_sentence_passes_through self sentence d :
  Forall (λ w, dictionary self d !! lower w = None) (split_ws sentence) →
  translate_sentence self sentence d
  = Some (lower (join " " (split_ws sentence)), ["No alternative translations"]).
Proof.
  intros Hmiss. unfold translate_sentence.
  assert (∀ ws, Forall (λ w, dictionary self d !! lower w = None) ws →
            Forall (λ w, translate_word self w d ≠ []) ws
            ∧ firsts self d ws = lower <$> ws
            ∧ possibilities self d ws = []) as Hloop.
  { induction 1 as [|w ws Hw _ (IH1 & IH2 & IH3)]; [by repeat constructor|].
    pose proof (translate_word_on_miss _ _ _ Hw) as E. split_and!.
    - constructor; [by rewrite E|done].
    - unfold firsts in *. by rewrite !fmap_cons, E, IH2.
    - cbn [possibilities]. rewrite E. simpl. exact IH3. }
  destruct (Hloop _ Hmiss) as (Hok & Hf & Hp).
  rewrite (sentence_loop_ok _ _ _ _ _ Hok), Hf, Hp. simpl.
  by rewrite join_lower.
Qed.

Lemma unknown_sentence_passes_through_witness :
  translate_sentence (init [example_row]) "  Hello   WORLD " true
  = Some (lower (join " " (split_ws "  Hello   WORLD ")), ["No alternative translations"]).
Proof.
  apply (unknown_sentence_passes_through (init [example_row]) "  Hello   WORLD " true).
  vm_compute. repeat constructor.
Defined.

(** X9. Only the tokens of a sentence matter: trimming the sentence, or
    replacing every run of whitespace by one space, does not change the
    result of [translate_sentence]. *)
Theorem translate_sentence_ignores_spacing self sentence d :
  translate_sentence self (strip sentence) d = translate_sentence self sentence d
  ∧ translate_sentence self (join " " (split_ws sentence)) d
    = translate_sentence self sentence d.
Proof.
  unfold translate_sentence.
  by rewrite split_ws_strip, (split_ws_join _ (split_ws_tokens sentence)).
Qed.

Lemma possibilities_filter self d ws :
  possibilities self d ws
  = (λ w, w +:+ ": " +:+ join ", " (translate_word self w d))
    <$> filter (λ w, 1 < length (translate_word self w d)) ws.
Proof.
  induction ws as [|w ws IH]; [done|].
  rewrite filter_cons. cbn [possibilities]. case_decide; [|done].
  by rewrite fmap_cons, IH.
Qed.

(** X10. When [translate_sentence] returns, its alternatives hold one entry
    "token: syn1, syn2, ..." for each token with more than one translation,
    in the order of the sentence and once per occurrence; with no such
    token they are the sentinel. *)
Theorem sentence_alternatives_entries self sentence d primary alternatives :
  translate_sentence self sentence d = Some (primary, alternatives) →
  alternatives
  = match filter (λ w, 1 < length (translate_word self w d)) (split_ws sentence) with
    | [] => ["No alternative translations"]
    | ambiguous =>
        (λ w, w +:+ ": " +:+ join ", " (translate_word self w d)) <$> ambiguous
    end.
Proof.
  intros Hret.
  assert (Forall (λ w, translate_word self w d ≠ []) (split_ws sentence)) as Hok.
  { apply Forall_forall. intros w Hw Hnil.
    assert (translate_sentence self sentence d = None) as Hn; [|congruence].
    apply translate_sentence_None, Exists_exists. by exists w. }
  unfold translate_sentence in Hret.
  rewrite (sentence_loop_ok _ _ _ _ _ Hok) in Hret. simpl in Hret.
  rewrite possibilities_filter in Hret.
  destruct (filter _ (split_ws sentence)) as [|w ws]; by injection Hret as _ <-.
Qed.

Lemma sentence_alternatives_entries_witness :
  ["A: X, y"]
  = match filter (λ w, 1 < length (translate_word (init [Row (Text "a") (Text "X, y")]) w true))
            (split_ws " A  b") with
    | [] => ["No alternative translations"]
    | ambiguous =>
        (λ w, w +:+ ": " +:+ join ", "
                (translate_word (init [Row (Text "a") (Text "X, y")]) w true))
        <$> ambiguous
    end.
Proof.
  apply (sentence_alternatives_entries (init [Row (Text "a") (Text "X, y")])
           " A  b" true "X b" ["A: X, y"]).
  vm_compute. reflexivity.
Defined.

End SentenceMore.

(** * Further properties of the request handlers *)

Section EndpointMore.
Import PyStr.

Lemma has_text_truthy kv v : App.dict_get "text" kv = Some v → App.truthy (JObj kv) = true.
Proof. by destruct kv. Qed.

Lemma truthy_strip s : strip s ≠ "" → truthy (strip s) = true.
Proof. by destruct (strip s). Qed.

(** The word handler on a body whose [text] is a string that is not blank. *)
Lemma word_try_well_formed translator kv s :
  App.dict_get "text" kv = Some (JStr s) → strip s ≠ "" →
  App.translate_word_try translator (JObj kv)
  = let to_bangla := default (JBool true) (App.dict_get "to_bangla" kv) in
    let translations := BT.translate_word translator (strip s) (App.truthy to_bangla) in
    App.bind (App.first translations) (λ primary,
      inr (App.Response
             (App.Translated (strip s) primary
                (if decide (1 < length translations) then drop 1 translations else [])
                (App.direction to_bangla))
             200)).
Proof.
  intros Ht Hs. unfold App.translate_word_try.
  rewrite (has_text_truthy _ _ Ht). cbn [negb App.contains App.bind App.subscript].
  rewrite Ht. rewrite bool_decide_eq_true_2 by eauto.
  cbn [negb App.strip App.bind App.get_default_true].
  by rewrite (truthy_strip _ Hs).
Qed.

(** The sentence handler on such a body. *)
Lemma sentence_try_well_formed translator kv s :
  App.dict_get "text" kv = Some (JStr s) → strip s ≠ "" →
  App.translate_sentence_try translator (JObj kv)
  = let to_bangla := default (JBool true) (App.dict_get "to_bangla" kv) in
    match BT.translate_sentence translator (strip s) (App.truthy to_bangla) with
    | None => inl App.IndexError
    | Some (primary, alternatives) =>
        inr (App.Response
               (App.Translated (strip s) primary alternatives (App.direction to_bangla))
               200)
    end.
Proof.
  intros Ht Hs. unfold App.translate_sentence_try.
  rewrite (has_text_truthy _ _ Ht). cbn [negb App.contains App.bind App.subscript].
  rewrite Ht. rewrite bool_decide_eq_true_2 by eauto.
  cbn [negb App.strip App.bind App.get_default_true].
  by rewrite (truthy_strip _ Hs).
Qed.

Lemma word_endpoint_ok df data s :
  has_text data s → strip s ≠ "" →
  ∃ primary alternatives,
    (App.translate_word (BT.init df) data).1
    = App.Response
        (App.Translated (strip s) primary alternatives
           (if to_bangla_of data then "chakma_to_bangla" else "bangla_to_chakma"))
        200
    ∧ primary :: alternatives
      = BT.translate_word (BT.init df) (strip s) (to_bangla_of data).
Proof.
  intros (kv & -> & Ht) Hs. unfold App.translate_word.
  rewrite (word_try_well_formed _ _ _ Ht Hs). cbn zeta.
  unfold to_bangla_of, App.direction.
  destruct (translate_word_cons df (strip s)
              (App.truthy (default (JBool true) (App.dict_get "to_bangla" kv))))
    as (x & xs & ->).
  exists x, xs. split; [|done]. simpl.
  destruct (decide (1 < S (length xs))); [done|].
  destruct xs; [done|]. simpl in *. lia.
Qed.

(** X11. With a translator built by the loader, a body whose [text] is a
    string that is not blank is answered 200 by the word endpoint: the
    trimmed text is echoed, the primary translation followed by the
    alternatives is the result of [translate_word] on the trimmed text, and
    the direction is Chakma to Bangla when [to_bangla] is absent or true. *)
Theorem word_endpoint_success df data s :
  has_text data s → strip s ≠ "" →
  ∃ primary alternatives,
    (App.translate_word (BT.init df) data).1
    = App.Response
        (App.Translated (strip s) primary alternatives
           (if to_bangla_of data then "chakma_to_bangla" else "bangla_to_chakma"))
        200
    ∧ primary :: alternatives
      = BT.translate_word (BT.init df) (strip s) (to_bangla_of data).
Proof. apply word_endpoint_ok. Qed.

Lemma word_endpoint_success_witness :
  ∃ primary alternatives,
    (App.translate_word (BT.init [Row (Text "a") (Text "X, y")])
       (JObj [("text", JStr " A ")])).1
    = App.Response
        (App.Translated (strip " A ") primary alternatives
           (if to_bangla_of (JObj [("text", JStr " A ")])
            then "chakma_to_bangla" else "bangla_to_chakma"))
        200
    ∧ primary :: alternatives
      = BT.translate_word (BT.init [Row (Text "a") (Text "X, y")]) (strip " A ")
          (to_bangla_of (JObj [("text", JStr " A ")])).
Proof.
  apply (word_endpoint_success [Row (Text "a") (Text "X, y")]
           (JObj [("text", JStr " A ")]) " A ").
  - eexists. split; reflexivity.
  - discriminate.
Defined.

Lemma sentence_endpoint_ok df data s :
  has_text data s → strip s ≠ "" →
  ∃ primary alternatives,
    (App.translate_sentence (BT.init df) data).1
    = App.Response
        (App.Translated (strip s) primary alternatives
           (if to_bangla_of data then "chakma_to_bangla" else "bangla_to_chakma"))
        200
    ∧ BT.translate_sentence (BT.init df) s (to_bangla_of data)
      = Some (primary, alternatives)
    ∧ alternatives ≠ [].
Proof.
  intros (kv & -> & Ht) Hs. unfold App.translate_sentence.
  rewrite (sentence_try_well_formed _ _ _ Ht Hs). cbn zeta.
  unfold to_bangla_of, App.direction.
  set (d := App.truthy (default (JBool true) (App.dict_get "to_bangla" kv))).
  assert (BT.translate_sentence (BT.init df) (strip s) d
          = BT.translate_sentence (BT.init df) s d) as ->.
  { unfold BT.translate_sentence. by rewrite split_ws_strip. }
  rewrite translate_sentence_init. eexists _, _. split_and!; [done..|].
  by destruct (possibilities _ _ _).
Qed.

(** X12. With a translator built by the loader, such a body is answered 200
    by the sentence endpoint, with the trimmed text echoed and the primary
    output and alternatives of [translate_sentence]; these are the same for
    the text as sent and for the trimmed text, and the alternatives are
    never empty. *)
Theorem sentence_endpoint_success df data s :
  has_text data s → strip s ≠ "" →
  ∃ primary alternatives,
    (App.translate_sentence (BT.init df) data).1
    = App.Response
        (App.Translated (strip s) primary alternatives
           (if to_bangla_of data then "chakma_to_bangla" else "bangla_to_chakma"))
        200
    ∧ BT.translate_sentence (BT.init df) s (to_bangla_of data)
      = Some (primary, alternatives)
    ∧ alternatives ≠ [].
Proof. apply sentence_endpoint_ok. Qed.

Lemma sentence_endpoint_success_witness :
  ∃ primary alternatives,
    (App.translate_sentence (BT.init [example_row])
       (JObj [("text", JStr " cha1  x ")])).1
    = App.Response
        (App.Translated (strip " cha1  x ") primary alternatives
           (if to_bangla_of (JObj [("text", JStr " cha1  x ")])
            then "chakma_to_bangla" else "bangla_to_chakma"))
        200
    ∧ BT.translate_sentence (BT.init [example_row]) " cha1  x "
        (to_bangla_of (JObj [("text", JStr " cha1  x ")]))
      = Some (primary, alternatives)
    ∧ alternatives ≠ [].
Proof.
  apply (sentence_endpoint_success [example_row]
           (JObj [("text", JStr " cha1  x ")]) " cha1  x ").
  - eexists. split; reflexivity.
  - discriminate.
Defined.

Lemma try_no_text translator kv :
  App.dict_get "text" kv = None →
  App.translate_word_try translator (JObj kv)
  = inr (App.Response (App.Error "Missing required field: text") 400)
  ∧ App.translate_sentence_try translator (JObj kv)
    = inr (App.Response (App.Error "Missing required field: text") 400).
Proof.
  intros Ht. unfold App.translate_word_try, App.translate_sentence_try.
  destruct (App.truthy (JObj kv)); [|done].
  cbn [negb App.contains App.bind]. rewrite Ht.
  by rewrite bool_decide_eq_false_2 by by intros [].
Qed.

Lemma try_blank translator kv s :
  App.dict_get "text" kv = Some (JStr s) → strip s = "" →
  App.translate_word_try translator (JObj kv)
  = inr (App.Response (App.Error "Empty text provided") 400)
  ∧ App.translate_sentence_try translator (JObj kv)
    = inr (App.Response (App.Error "Empty text provided") 400).
Proof.
  intros Ht Hs. unfold App.translate_word_try, App.translate_sentence_try.
  rewrite (has_text_truthy _ _ Ht). cbn [negb App.contains App.bind App.subscript].
  rewrite Ht. rewrite bool_decide_eq_true_2 by eauto.
  cbn [negb App.strip App.bind App.get_default_true]. by rewrite Hs.
Qed.

Lemma try_not_str translator kv v :
  App.dict_get "text" kv = Some v → (∀ s, v ≠ JStr s) →
  App.translate_word_try translator (JObj kv) = inl App.AttributeError
  ∧ App.translate_sentence_try translator (JObj kv) = inl App.AttributeError.
Proof.
  intros Ht Hv. unfold App.translate_word_try, App.translate_sentence_try.
  rewrite (has_text_truthy _ _ Ht). cbn [negb App.contains App.bind App.subscript].
  rewrite Ht. rewrite bool_decide_eq_true_2 by eauto.
  cbn [negb App.bind]. destruct v; try done. by destruct (Hv s).
Qed.

Lemma try_non_object translator data :
  (∀ kv, data ≠ JObj kv) →
  App.translate_word_try translator data = App.translate_sentence_try translator data
  ∧ rejected (App.translate_word_try translator data).
Proof.
  intros Hno. unfold App.translate_word_try, App.translate_sentence_try.
  destruct (App.truthy data) eqn:Htruthy; cbn [negb]; [|split; [done|constructor]].
  destruct data as [|b|z|q|s|l|kv]; cbn [App.contains App.bind];
    try (split; [done|constructor]).
  - destruct (App.occurs "text" s); cbn [negb App.subscript App.bind];
      split; (done || constructor).
  - destruct (existsb (App.is_str "text") l); cbn [negb App.subscript App.bind];
      split; (done || constructor).
  - by destruct (Hno kv).
Qed.

(** Every body is well formed, or turned down alike by both handlers. *)
Lemma request_cases translator data :
  (∃ s, has_text data s ∧ strip s ≠ "")
  ∨ (App.translate_word_try translator data = App.translate_sentence_try translator data
     ∧ rejected (App.translate_word_try translator data)).
Proof.
  destruct data as [| | | | | |kv];
    try (right; apply try_non_object; intros kv; discriminate).
  destruct (App.dict_get "text" kv) as [v|] eqn:Ht.
  - destruct v as [| | | |s| |];
      try (right; destruct (try_not_str translator kv _ Ht) as [-> ->];
           [by intros s|split; [done|constructor]]).
    destruct (decide (strip s = "")) as [Hs|Hs].
    + right. destruct (try_blank translator kv s Ht Hs) as [-> ->].
      split; [done|constructor].
    + left. exists s. split; [by exists kv|done].
  - right. destruct (try_no_text translator kv Ht) as [-> ->].
    split; [done|constructor].
Qed.

(** X13. With a translator built by the loader the two endpoints accept
    and refuse the same bodies: they answer every body with the same status,
    and with the very same response whenever that status is not 200. *)
Theorem endpoints_agree df data :
  App.status (App.translate_word (BT.init df) data).1
  = App.status (App.translate_sentence (BT.init df) data).1
  ∧ (App.status (App.translate_word (BT.init df) data).1 ≠ 200 →
     (App.translate_word (BT.init df) data).1
     = (App.translate_sentence (BT.init df) data).1).
Proof.
  destruct (request_cases (BT.init df) data) as [(s & Ht & Hs)|[Heq Hrej]].
  - destruct (word_endpoint_ok df data s Ht Hs) as (p & a & -> & _).
    destruct (sentence_endpoint_ok df data s Ht Hs) as (p' & a' & -> & _).
    by split.
  - unfold App.translate_word, App.translate_sentence. rewrite <- Heq.
    by destruct Hrej.
Qed.

(** X14. With a translator built by the loader, neither endpoint answers
    500 to a body that is a JSON object whose [text], if it has one, is a
    string; and for any translator both answer 500 to an object whose
    [text] is not a string. *)
Theorem server_error_only_for_malformed df translator data :
  (App.status (App.translate_word (BT.init df) data).1 = 500
   ∨ App.status (App.translate_sentence (BT.init df) data).1 = 500 →
   (∀ kv, data ≠ JObj kv) ∨ (∃ v, text_field data = Some v ∧ ∀ s, v ≠ JStr s))
  ∧ ((∃ v, text_field data = Some v ∧ ∀ s, v ≠ JStr s) →
     App.status (App.translate_word translator data).1 = 500
     ∧ App.status (App.translate_sentence translator data).1 = 500).
Proof.
  split.
  - intros H500.
    destruct data as [| | | | | |kv]; try (left; intros kv; discriminate).
    right. simpl.
    destruct (App.dict_get "text" kv) as [v|] eqn:Ht.
    + exists v. split; [done|]. intros s ->. exfalso.
      destruct (decide (strip s = "")) as [Hs|Hs].
      * unfold App.translate_word, App.translate_sentence in H500.
        destruct (try_blank (BT.init df) kv s Ht Hs) as [Hw Hsn].
        rewrite Hw, Hsn in H500. simpl in H500. by destruct H500.
      * assert (has_text (JObj kv) s) as Hx by by exists kv.
        destruct (word_endpoint_ok df _ s Hx Hs) as (p & a & Hw & _).
        destruct (sentence_endpoint_ok df _ s Hx Hs) as (p' & a' & Hsn & _).
        rewrite Hw, Hsn in H500. simpl in H500. by destruct H500.
    + exfalso. unfold App.translate_word, App.translate_sentence in H500.
      destruct (try_no_text (BT.init df) kv Ht) as [Hw Hsn].
      rewrite Hw, Hsn in H500. simpl in H500. by destruct H500.
  - intros (v & Hv & Hns).
    destruct data as [| | | | | |kv]; try done. simpl in Hv.
    unfold App.translate_word, App.translate_sentence.
    by destruct (try_not_str translator kv v Hv Hns) as [-> ->].
Qed.

Lemma server_error_only_for_malformed_witness :
  App.status (App.translate_word (BT.init [example_row])
                (JObj [("text", JInt 7)])).1 = 500
  ∧ App.status (App.translate_sentence (BT.init [example_row])
                  (JObj [("text", JInt 7)])).1 = 500.
Proof.
  apply (proj2 (server_error_only_for_malformed [] (BT.init [example_row])
                  (JObj [("text", JInt 7)]))).
  exists (JInt 7). split; [reflexivity|discriminate].
Defined.

(** X15. With a translator built by the loader, for a text that is a
    single token the two endpoints give the same primary translation. *)
Theorem single_token_primary_agrees df data s :
  has_text data s → is_token (strip s) →
  ∃ primary alts_word alts_sentence direction,
    App.payload (App.translate_word (BT.init df) data).1
    = App.Translated (strip s) primary alts_word direction
    ∧ App.payload (App.translate_sentence (BT.init df) data).1
      = App.Translated (strip s) primary alts_sentence direction.
Proof.
  intros Ht Htok. assert (strip s ≠ "") as Hs by apply Htok.
  destruct (word_endpoint_ok df data s Ht Hs) as (p & a & -> & Hw).
  destruct (sentence_endpoint_ok df data s Ht Hs) as (p' & a' & -> & Hsn & _).
  exists p, a, a', (if to_bangla_of data then "chakma_to_bangla" else "bangla_to_chakma").
  split; [done|]. simpl. f_equal.
  assert (BT.translate_sentence (BT.init df) (strip s) (to_bangla_of data)
          = Some (p', a')) as Hsn'.
  { rewrite <- Hsn. unfold BT.translate_sentence. by rewrite split_ws_strip. }
  rewrite translate_sentence_init in Hsn'.
  assert (split_ws (strip s) = [strip s]) as Hsplit.
  { apply (split_ws_join [strip s]). constructor; [done|constructor]. }
  rewrite Hsplit in Hsn'. unfold firsts in Hsn'. simpl in Hsn'.
  rewrite <- Hw in Hsn'. simpl in Hsn'. by injection Hsn' as <- _.
Qed.

Lemma single_token_primary_agrees_witness :
  ∃ primary alts_word alts_sentence direction,
    App.payload (App.translate_word (BT.init [Row (Text "a") (Text "X, y")])
                   (JObj [("text", JStr " A ")])).1
    = App.Translated (strip " A ") primary alts_word direction
    ∧ App.payload (App.translate_sentence (BT.init [Row (Text "a") (Text "X, y")])
                     (JObj [("text", JStr " A ")])).1
      = App.Translated (strip " A ") primary alts_sentence direction.
Proof.
  apply (single_token_primary_agrees [Row (Text "a") (Text "X, y")]
           (JObj [("text", JStr " A ")]) " A ").
  - eexists. split; reflexivity.
  - split; [discriminate|reflexivity].
Defined.

End EndpointMore.
